(** * Single-field query resolution (graphql/resolve/query.go)

    A shallow embedding of the two resolvers of [query.go]: the store-backed
    [queryResolver] (rewrite, execute, complete) and the HTTP-backed
    [httpResolver] (derive a request from the field, issue it, read the body,
    complete).

    Go values are modelled as follows.
    - A Go [error] is [option error]; [None] is the nil error.
    - A [[]byte] is [option (list byte)]; [None] is the nil slice.
    - A pointer ([*gql.GraphQuery], [*Resolved]) is an [option].
    - A Go result pair [(v, err)] of the package's own interfaces is a pair:
      both components are whatever the collaborator returned.
    - The collaborators (rewriter, executor, completer, HTTP client, body
      reader) are external and may be stateful: their behaviour is a function
      of an abstract [World] that returns the result and the next world.
    - A collaborator returns: it is a total function to Go's result pair.  A
      Go panic is outside the model (query.go has no recover).
    - Every call the resolvers make to the outside is recorded, in order, in an
      event trace that the collaborators cannot touch.  Statements such as
      "the executor is never invoked" are statements about that trace.
      Tracing ([x.SpanTimer] and the deferred stop) and logging
      ([glog.Infof]) are write-only and appear as events only. *)

From Stdlib Require Import List String Ascii Bool Arith Lia.
From Stdlib.Strings Require Import Byte.
Import ListNotations.
Open Scope string_scope.

(** ** Errors *)

(** Modelled from the spec: Go's error values and [schema.GQLWrapf] (package
    [schema] is not under src/).  The spec says an error crossing a
    collaborator boundary is wrapped with a human-readable context and that
    the underlying error stays reachable as the cause.  [errorNew] is an
    error made by a collaborator, [errorWrap] the result of wrapping. *)
Inductive error : Type :=
| errorNew (text : string)
| errorWrap (cause : error) (context : string).

(** The formatting of a context string: each [%s] verb takes the next
    argument, as [fmt.Sprintf] does for string arguments. *)
Fixpoint Sprintf (format : string) (args : list string) : string :=
  match format with
  | EmptyString => EmptyString
  | String c rest =>
      match rest with
      | String c' rest' =>
          if (Ascii.eqb c "%" && Ascii.eqb c' "s")%bool
          then match args with
               | a :: args' => a ++ Sprintf rest' args'
               | [] => "%!s(MISSING)" ++ Sprintf rest' []
               end
          else String c (Sprintf rest args)
      | EmptyString => String c EmptyString
      end
  end.

(** Modelled from the spec: [schema.GQLWrapf err format args] (not under
    src/) wraps [err] with the formatted context and keeps [err] as cause. *)
Definition GQLWrapf (err : error) (format : string) (args : list string) : error :=
  errorWrap err (Sprintf format args).

(** The direct cause of an error, and the whole cause chain. *)
Definition Cause (e : error) : option error :=
  match e with
  | errorNew _ => None
  | errorWrap c _ => Some c
  end.

Fixpoint causeChain (e : error) : list error :=
  e :: match e with
       | errorNew _ => []
       | errorWrap c _ => causeChain c
       end.

(** The context label of a wrapped error; an unwrapped error has none. *)
Definition Label (e : error) : option string :=
  match e with
  | errorNew _ => None
  | errorWrap _ l => Some l
  end.

(** [contains s sub]: [sub] occurs in [s] (as [strings.Contains]). *)
Fixpoint contains (s sub : string) : bool :=
  (String.prefix sub s ||
   match s with
   | EmptyString => false
   | String _ s' => contains s' sub
   end)%bool.

(** [[]byte]: [None] is the nil slice. *)
Definition bytes : Type := option (list byte).

(** The descriptor a remote-backed field yields ([schema.HTTPResolverConfig]). *)
Record HTTPResolverConfig : Type := {
  URL : string;
  Method : string;
  Body : string
}.

(** Resolved is the outcome of resolving one field. *)
Record Resolved : Type := {
  Data : bytes;
  Err : option error
}.

(** ** What is outside query.go *)

(** The opaque types of the surrounding packages and the operations the
    resolvers use of them.  An external operation that acts on the store or
    the network is a function of the [World] that returns its result and the
    next world.
    - Package [schema]: the two accessors of a query field used here and the
      introspection of a field.
    - The Go library: [http.NewRequest] is a pure function of its arguments
      and yields a request or an error; reading and closing a response body
      act on the world; the error of [Close] is dropped by the deferred
      call. *)
Class Externals : Type := {
  Ctx : Type;          (* context.Context *)
  schema_Query : Type; (* schema.Query *)
  GraphQuery : Type;   (* gql.GraphQuery *)
  Request : Type;      (* http.Request *)
  Response : Type;     (* http.Response *)
  ReadCloser : Type;   (* io.ReadCloser, the type of resp.Body *)
  World : Type;        (* the state of everything outside: store, network *)
  ResponseName : schema_Query -> string;
  HTTPResolver : schema_Query -> HTTPResolverConfig * option error;
  Introspect : schema_Query -> World -> (bytes * option error) * World;
  http_NewRequest : string -> string -> string -> Request + error;
  resp_Body : Response -> ReadCloser;
  ioutil_ReadAll : ReadCloser -> World -> (bytes * option error) * World;
  Body_Close : ReadCloser -> World -> option error * World
}.

Section Resolve.

Context {ext : Externals}.

(** The behaviour of an external call: result and next world. *)
Definition IO (A : Type) : Type := World -> A * World.

(** ** The collaborator interfaces *)

(** A QueryRewriter can build a Dgraph gql.GraphQuery from a GraphQL query. *)
Record QueryRewriter : Type := {
  Rewrite : Ctx -> schema_Query -> IO (option GraphQuery * option error)
}.

(** A QueryExecutor can execute a gql.GraphQuery and return a result. *)
Record QueryExecutor : Type := {
  Query : Ctx -> option GraphQuery -> IO (bytes * option error)
}.

(** The ResultCompleter interface of the package (declared outside
    query.go): it turns the raw result and error into the final ones. *)
Record ResultCompleter : Type := {
  Complete : Ctx -> schema_Query -> bytes -> option error -> IO (bytes * option error)
}.

(** [*http.Client]: [Do] yields an error or a response.  (net/http never
    returns a nil response with a nil error, and a response it delivers
    along with an error has its body closed already.) *)
Record http_Client : Type := {
  Do : Request -> IO (Response + error)
}.

(** ** The event trace and the resolver monad *)

Inductive Event : Type :=
| EvSpanTimer (name : string)
| EvSpanStop (name : string)
| EvRewrite (ctx : Ctx) (q : schema_Query)
| EvQuery (ctx : Ctx) (dgQuery : option GraphQuery)
| EvInfof (format : string) (err : error)
| EvComplete (ctx : Ctx) (q : schema_Query) (res : bytes) (err : option error)
| EvNewRequest (method url body : string)
| EvDo (req : Request)
| EvReadAll (body : ReadCloser)
| EvClose (body : ReadCloser).

Record State : Type := {
  world : World;
  trace : list Event
}.

Definition M (A : Type) : Type := State -> A * State.

Definition ret {A} (a : A) : M A := fun s => (a, s).

Definition bind {A B} (m : M A) (k : A -> M B) : M B :=
  fun s => let (a, s') := m s in k a s'.

(** Record an event without touching the world. *)
Definition emit (ev : Event) : M unit :=
  fun s => (tt, {| world := world s; trace := trace s ++ [ev] |}).

(** Call a collaborator: the event is recorded, then the collaborator runs
    on the world. *)
Definition call {A} (ev : Event) (io : IO A) : M A :=
  fun s =>
    let (a, w') := io (world s) in
    (a, {| world := w'; trace := trace s ++ [ev] |}).

Definition run {A} (m : M A) (w : World) : A * State :=
  m {| world := w; trace := [] |}.

Notation "x <- m ;; k" := (bind m (fun x => k))
  (at level 61, m at next level, right associativity).
Notation "' pat <- m ;; k" := (bind m (fun x => match x with pat => k end))
  (at level 61, pat pattern, m at next level, right associativity).
Notation "m ;;; k" := (bind m (fun _ => k))
  (at level 61, right associativity).

(** ** Function adapters *)

(** A QueryResolver can resolve a single query. *)
Record QueryResolver : Type := {
  Resolve : Ctx -> schema_Query -> M (option Resolved)
}.

Definition QueryResolverFunc : Type := Ctx -> schema_Query -> IO (option Resolved).
Definition QueryRewritingFunc : Type :=
  Ctx -> schema_Query -> IO (option GraphQuery * option error).
Definition QueryExecutionFunc : Type :=
  Ctx -> option GraphQuery -> IO (bytes * option error).

(** Resolve calls qr(ctx, query) *)
Definition QueryResolverFunc_Resolve (qr : QueryResolverFunc) : QueryResolver :=
  {| Resolve := fun ctx query s =>
       let (r, w') := qr ctx query (world s) in
       (r, {| world := w'; trace := trace s |}) |}.

(** Rewrite calls qr(q) *)
Definition QueryRewritingFunc_Rewrite (qr : QueryRewritingFunc) : QueryRewriter :=
  {| Rewrite := fun ctx q => qr ctx q |}.

(** Query calls qe(ctx, query) *)
Definition QueryExecutionFunc_Query (qe : QueryExecutionFunc) : QueryExecutor :=
  {| Query := fun ctx query => qe ctx query |}.

(** NoOpQueryExecution does nothing and returns nil. *)
Definition NoOpQueryExecution : QueryExecutionFunc :=
  fun ctx query w => ((None, None), w).

(** NoOpQueryRewrite does nothing and returns a nil rewriting. *)
Definition NoOpQueryRewrite : QueryRewritingFunc :=
  fun ctx q w => ((None, None), w).

Definition introspectionExecution (q : schema_Query) : QueryExecutionFunc :=
  fun ctx query => Introspect q.

(** ** The store-backed resolver *)

(** a queryResolver can resolve a single GraphQL query field. *)
Record queryResolver : Type := {
  queryRewriter : QueryRewriter;
  queryExecutor : QueryExecutor;
  resultCompleter : ResultCompleter
}.

Definition queryResolver_rewriteAndExecute
    (qr : queryResolver) (ctx : Ctx) (query : schema_Query)
  : M (bytes * option error) :=
  '(dgQuery, err) <- call (EvRewrite ctx query) (Rewrite (queryRewriter qr) ctx query) ;;
  match err with
  | Some e =>
      ret (None, Some (GQLWrapf e "couldn't rewrite query %s" [ResponseName query]))
  | None =>
      '(resp, err) <- call (EvQuery ctx dgQuery) (Query (queryExecutor qr) ctx dgQuery) ;;
      match err with
      | Some e =>
          emit (EvInfof "Dgraph query execution failed : %s" e) ;;;
          ret (None, Some (GQLWrapf e "Dgraph query failed" []))
      | None => ret (resp, None)
      end
  end.

Definition queryResolver_Resolve
    (qr : queryResolver) (ctx : Ctx) (query : schema_Query)
  : M (option Resolved) :=
  emit (EvSpanTimer "resolveQuery") ;;;
  '(res, err) <- queryResolver_rewriteAndExecute qr ctx query ;;
  '(completed, err) <-
     call (EvComplete ctx query res err)
          (Complete (resultCompleter qr) ctx query res err) ;;
  emit (EvSpanStop "resolveQuery") ;;;
  ret (Some {| Data := completed; Err := err |}).

(** NewQueryResolver creates a new query resolver. *)
Definition NewQueryResolver
    (qr : QueryRewriter) (qe : QueryExecutor) (rc : ResultCompleter)
  : QueryResolver :=
  {| Resolve := queryResolver_Resolve
       {| queryRewriter := qr; queryExecutor := qe; resultCompleter := rc |} |}.

(** ** The HTTP-backed resolver *)

(** a httpResolver can resolve a single GraphQL query field from an HTTP
    endpoint.  ([hr_resultCompleter] is the struct's [resultCompleter].) *)
Record httpResolver : Type := {
  Client : http_Client;
  httpRewriter : QueryRewriter;
  httpExecutor : QueryExecutor;
  hr_resultCompleter : ResultCompleter
}.

Definition httpResolver_rewriteAndExecute
    (hr : httpResolver) (ctx : Ctx) (query : schema_Query)
  : M (bytes * option error) :=
  let (hrc, err) := HTTPResolver query in
  match err with
  | Some e => ret (None, Some e)
  | None =>
      r <- (emit (EvNewRequest (Method hrc) (URL hrc) (Body hrc)) ;;;
            ret (http_NewRequest (Method hrc) (URL hrc) (Body hrc))) ;;
      match r with
      | inr e => ret (None, Some e)
      | inl req =>
          r <- call (EvDo req) (Do (Client hr) req) ;;
          match r with
          | inr e => ret (None, Some e)
          | inl resp =>
              '(b, err) <- call (EvReadAll (resp_Body resp))
                                (ioutil_ReadAll (resp_Body resp)) ;;
              (* deferred: resp.Body.Close() *)
              call (EvClose (resp_Body resp))
                   (Body_Close (resp_Body resp)) ;;;
              ret (b, err)
          end
      end
  end.

Definition httpResolver_Resolve
    (hr : httpResolver) (ctx : Ctx) (query : schema_Query)
  : M (option Resolved) :=
  emit (EvSpanTimer "resolveHTTPQuery") ;;;
  '(res, err) <- httpResolver_rewriteAndExecute hr ctx query ;;
  '(completed, err) <-
     call (EvComplete ctx query res err)
          (Complete (hr_resultCompleter hr) ctx query res err) ;;
  emit (EvSpanStop "resolveHTTPQuery") ;;;
  ret (Some {| Data := completed; Err := err |}).

Definition NewHTTPResolver
    (hc : http_Client) (qr : QueryRewriter) (qe : QueryExecutor)
    (rc : ResultCompleter)
  : QueryResolver :=
  {| Resolve := httpResolver_Resolve
       {| Client := hc; httpRewriter := qr; httpExecutor := qe;
          hr_resultCompleter := rc |} |}.

(** ** Observing a run *)

(** The value a computation returns from world [w], the events it records
    and the world it leaves. *)
Definition outcome {A} (m : M A) (w : World) : A := fst (run m w).
Definition events {A} (m : M A) (w : World) : list Event := trace (snd (run m w)).
Definition finalWorld {A} (m : M A) (w : World) : World := world (snd (run m w)).

(** ** Reading a trace *)

Definition isRewrite (ev : Event) : bool :=
  match ev with EvRewrite _ _ => true | _ => false end.

Definition isQuery (ev : Event) : bool :=
  match ev with EvQuery _ _ => true | _ => false end.

Definition isComplete (ev : Event) : bool :=
  match ev with EvComplete _ _ _ _ => true | _ => false end.

Definition isNewRequest (ev : Event) : bool :=
  match ev with EvNewRequest _ _ _ => true | _ => false end.

Definition isDo (ev : Event) : bool :=
  match ev with EvDo _ => true | _ => false end.

Definition isClose (ev : Event) : bool :=
  match ev with EvClose _ => true | _ => false end.

(** How many events of a kind a trace holds. *)
Definition calls (kind : Event -> bool) (t : list Event) : nat :=
  List.length (filter kind t).

(** The [(rawResult, err)] pairs the completer was invoked with, in order. *)
Fixpoint completerInputs (t : list Event) : list (bytes * option error) :=
  match t with
  | [] => []
  | EvComplete _ _ res err :: t' => (res, err) :: completerInputs t'
  | _ :: t' => completerInputs t'
  end.

(** The first failure a collaborator of the store path reports: the
    rewriter's error, or else the executor's on the rewritten query. *)
Definition storeFailure (qr : queryResolver) (ctx : Ctx) (query : schema_Query)
    (w : World) : option error :=
  let '((dgQuery, rerr), w1) := Rewrite (queryRewriter qr) ctx query w in
  match rerr with
  | Some e => Some e
  | None => snd (fst (Query (queryExecutor qr) ctx dgQuery w1))
  end.

(** The first failure of the HTTP path: the descriptor's, the request
    construction's, the transport's, or else the body read's. *)
Definition httpFailure (hr : httpResolver) (query : schema_Query)
    (w : World) : option error :=
  let (hrc, err) := HTTPResolver query in
  match err with
  | Some e => Some e
  | None =>
      match http_NewRequest (Method hrc) (URL hrc) (Body hrc) with
      | inr e => Some e
      | inl req =>
          match Do (Client hr) req w with
          | (inr e, _) => Some e
          | (inl resp, w1) => snd (fst (ioutil_ReadAll (resp_Body resp) w1))
          end
      end
  end.

(** A completer that never drops a failure it is handed. *)
Definition keepsFailures (rc : ResultCompleter) : Prop :=
  forall ctx q res e w, snd (fst (Complete rc ctx q res (Some e) w)) <> None.

(** [stageWrapped name orig h]: [h] is a wrapping whose label mentions
    [name] and whose cause chain holds [orig]. *)
Definition stageWrapped (name : string) (orig h : error) : Prop :=
  exists c l, h = errorWrap c l /\ contains l name = true /\ In orig (causeChain c).

End Resolve.

(** ** More ways to read a trace *)

Section TraceKinds.

Context {ext : Externals}.

Definition isSpanTimer (ev : Event) : bool :=
  match ev with EvSpanTimer _ => true | _ => false end.

Definition isSpanStop (ev : Event) : bool :=
  match ev with EvSpanStop _ => true | _ => false end.

Definition isInfof (ev : Event) : bool :=
  match ev with EvInfof _ _ => true | _ => false end.

Definition isReadAll (ev : Event) : bool :=
  match ev with EvReadAll _ => true | _ => false end.

(** The context a call was given, for the calls that take one. *)
Definition eventCtx (ev : Event) : option Ctx :=
  match ev with
  | EvRewrite ctx _ | EvQuery ctx _ | EvComplete ctx _ _ _ => Some ctx
  | _ => None
  end.

(** The query field a call was given, for the calls that take one. *)
Definition eventField (ev : Event) : option schema_Query :=
  match ev with
  | EvRewrite _ q | EvComplete _ q _ _ => Some q
  | _ => None
  end.


End TraceKinds.

(** ** A concrete deployment, for running the resolvers *)

Module Demo.

Definition payload (s : string) : bytes := Some (list_byte_of_string s).

(** Fields are named by their response name; the world counts the external
    calls served so far.  The field [legacyUser] has no HTTP descriptor,
    the method [BAD METHOD] is refused by [http.NewRequest], and the body
    [truncated] breaks off while it is read. *)
Definition demo : Externals := {|
  Ctx := unit;
  schema_Query := string;
  GraphQuery := string;
  Request := string * string * string;
  Response := string;
  ReadCloser := string;
  World := nat;
  ResponseName := fun q => q;
  HTTPResolver := fun q =>
    if String.eqb q "legacyUser"
    then ({| URL := ""; Method := ""; Body := "" |},
          Some (errorNew "no custom directive"))
    else if String.eqb q "badMethod"
    then ({| URL := "http://api.local/x"; Method := "BAD METHOD"; Body := "" |}, None)
    else ({| URL := "http://api.local/" ++ q; Method := "GET"; Body := "" |}, None);
  Introspect := fun q w => ((payload ("schema of " ++ q), None), w);
  http_NewRequest := fun m u b =>
    if String.eqb m "BAD METHOD"
    then inr (errorNew "net/http: invalid method")
    else inl (m, u, b);
  resp_Body := fun r => r;
  ioutil_ReadAll := fun body w =>
    if String.eqb body "truncated"
    then ((payload "trunc", Some (errorNew "unexpected EOF")), S w)
    else ((payload body, None), S w);
  Body_Close := fun _ w => (None, S w)
|}.

(** A rewriter that prefixes the field name, and one that always fails. *)
Definition prefixRewriter : @QueryRewriter demo :=
  @Build_QueryRewriter demo (fun _ q w => ((Some ("query " ++ q), None), w)).

Definition failingRewriter : @QueryRewriter demo :=
  @Build_QueryRewriter demo (fun _ _ w => ((None, Some (errorNew "unknown type")), w)).

(** An executor that answers [ok], and one whose store is down. *)
Definition okExecutor : @QueryExecutor demo :=
  @Build_QueryExecutor demo (fun _ _ w => ((payload "ok", None), S w)).

Definition downExecutor : @QueryExecutor demo :=
  @Build_QueryExecutor demo (fun _ _ w => ((None, Some (errorNew "connection refused")), S w)).

(** A completer that echoes its input, and one that answers a null payload
    without an error whatever it is handed. *)
Definition echoCompleter : @ResultCompleter demo :=
  @Build_ResultCompleter demo (fun _ _ res err w => ((res, err), w)).

Definition nullCompleter : @ResultCompleter demo :=
  @Build_ResultCompleter demo (fun _ _ _ _ w => ((payload "null", None), w)).

(** A client whose server answers with the requested URL as body, one whose
    server sends a body that breaks off, and one without a network. *)
Definition echoClient : @http_Client demo :=
  @Build_http_Client demo (fun req w => (inl (snd (fst req)), S w)).

Definition truncatingClient : @http_Client demo :=
  @Build_http_Client demo (fun _ w => (inl "truncated", S w)).

Definition offlineClient : @http_Client demo :=
  @Build_http_Client demo (fun _ w => (inr (errorNew "dial tcp: no route to host"), S w)).

Definition storeResolver (qr : @QueryRewriter demo) (qe : @QueryExecutor demo)
    (rc : @ResultCompleter demo) : @queryResolver demo :=
  {| queryRewriter := qr; queryExecutor := qe; resultCompleter := rc |}.

Definition remoteResolver (hc : @http_Client demo) (rc : @ResultCompleter demo)
  : @httpResolver demo :=
  {| Client := hc; httpRewriter := failingRewriter; httpExecutor := downExecutor;
     hr_resultCompleter := rc |}.

End Demo.

(** * Properties of the resolvers *)

Lemma append_empty_r (s : string) : s ++ "" = s.
Proof. induction s as [|c s IH]; cbn; [reflexivity | now rewrite IH]. Qed.

Lemma prefix_refl (s : string) : String.prefix s s = true.
Proof.
  induction s as [|c s IH]; cbn; [reflexivity|].
  destruct (ascii_dec c c); [exact IH | congruence].
Qed.

Lemma contains_prefix (s sub : string) :
  String.prefix sub s = true -> contains s sub = true.
Proof. destruct s; cbn [contains]; intros ->; reflexivity. Qed.

Lemma contains_append (p s : string) : contains (p ++ s) s = true.
Proof.
  induction p as [|c p IH].
  - apply contains_prefix, prefix_refl.
  - change (String c p ++ s) with (String c (p ++ s)).
    cbn [contains]. rewrite IH. apply orb_true_r.
Qed.

(** The context of a failed rewrite names the field. *)
Lemma rewrite_context (e : error) (name : string) :
  GQLWrapf e "couldn't rewrite query %s" [name] =
  errorWrap e ("couldn't rewrite query " ++ name).
Proof. unfold GQLWrapf; cbn. now rewrite append_empty_r. Qed.

Lemma execute_context (e : error) :
  GQLWrapf e "Dgraph query failed" [] = errorWrap e "Dgraph query failed".
Proof. reflexivity. Qed.

Section Properties.

Context {ext : Externals}.

Ltac unfold_pipeline :=
  unfold outcome, events, finalWorld, run, NewQueryResolver, NewHTTPResolver,
    queryResolver_Resolve, queryResolver_rewriteAndExecute,
    httpResolver_Resolve, httpResolver_rewriteAndExecute,
    QueryRewritingFunc_Rewrite, QueryExecutionFunc_Query,
    NoOpQueryRewrite, NoOpQueryExecution, introspectionExecution,
    storeFailure, httpFailure,
    bind, call, emit, ret in *;
  cbn in *.

(** Split on the outcome of the next external call in the goal. *)
Ltac next_call :=
  match goal with
  | |- context [Rewrite ?r ?c ?q ?w] =>
      destruct (Rewrite r c q w) as [[? [?|]] ?] eqn:?
  | |- context [Query ?r ?c ?q ?w] =>
      destruct (Query r c q w) as [[? [?|]] ?] eqn:?
  | |- context [HTTPResolver ?q] =>
      destruct (HTTPResolver q) as [? [?|]] eqn:?
  | |- context [http_NewRequest ?m ?u ?b] =>
      destruct (http_NewRequest m u b) as [?|?] eqn:?
  | |- context [Do ?c ?r ?w] =>
      destruct (Do c r w) as [[?|?] ?] eqn:?
  | |- context [ioutil_ReadAll ?b ?w] =>
      destruct (ioutil_ReadAll b w) as [[? [?|]] ?] eqn:?
  | |- context [Body_Close ?b ?w] =>
      destruct (Body_Close b w) as [? ?] eqn:?
  | |- context [Complete ?r ?c ?q ?a ?e ?w] =>
      destruct (Complete r c q a e w) as [[? ?] ?] eqn:?
  end; cbn in *.

Ltac run_pipeline := unfold_pipeline; repeat next_call.

(** The store path only ever appends rewrite, query and log events. *)
Lemma store_trace_has_no_complete (qr : queryResolver) ctx q w :
  filter isComplete
    (events (queryResolver_rewriteAndExecute qr ctx q) w) = [].
Proof. run_pipeline; reflexivity. Qed.

Lemma http_trace_has_no_complete (hr : httpResolver) ctx q w :
  filter isComplete
    (events (httpResolver_rewriteAndExecute hr ctx q) w) = [].
Proof. run_pipeline; reflexivity. Qed.

(** C1 (as amended).  On both resolvers [Resolve] returns a non-nil
    [Resolved] for every field and every behaviour of the collaborators,
    and there is no other way for it to fail.  Its [Data] and [Err] are
    exactly what the completer returns.  Every failure of an upstream
    collaborator reaches the completer as a non-nil error, and it shows as a
    non-nil [Err] whenever the completer keeps the failures it is handed. *)
Theorem Resolve_total_completer_decides :
  forall (qr : queryResolver) (hr : httpResolver) ctx q w,
    (exists r,
        outcome (queryResolver_Resolve qr ctx q) w = Some r /\
        (let rae := queryResolver_rewriteAndExecute qr ctx q in
         (Data r, Err r) =
           fst (Complete (resultCompleter qr) ctx q
                  (fst (outcome rae w)) (snd (outcome rae w)) (finalWorld rae w)) /\
         (storeFailure qr ctx q w <> None -> snd (outcome rae w) <> None) /\
         (keepsFailures (resultCompleter qr) ->
          storeFailure qr ctx q w <> None -> Err r <> None))) /\
    (exists r,
        outcome (httpResolver_Resolve hr ctx q) w = Some r /\
        (let rae := httpResolver_rewriteAndExecute hr ctx q in
         (Data r, Err r) =
           fst (Complete (hr_resultCompleter hr) ctx q
                  (fst (outcome rae w)) (snd (outcome rae w)) (finalWorld rae w)) /\
         (httpFailure hr q w <> None -> snd (outcome rae w) <> None) /\
         (keepsFailures (hr_resultCompleter hr) ->
          httpFailure hr q w <> None -> Err r <> None))).
Proof.
  intros qr hr ctx q w; split.
  - unfold keepsFailures. run_pipeline; eexists; (split; [reflexivity|]);
      cbn; repeat split; try congruence; intros K _ E; subst;
      match goal with
      | H : _ = (_, None, _) |- _ => eapply K; rewrite H; reflexivity
      end.
  - unfold keepsFailures. run_pipeline; eexists; (split; [reflexivity|]);
      cbn; repeat split; try congruence; intros K _ E; subst;
      match goal with
      | H : _ = (_, None, _) |- _ => eapply K; rewrite H; reflexivity
      end.
Qed.

(** C2.  On every path of [Resolve], of either resolver, the completer is
    invoked exactly once, with the context, the field and the raw result and
    error that [rewriteAndExecute] produced, and the [Resolved] returned
    holds exactly the payload and the error the completer returned. *)
Theorem completer_invoked_once_and_decides :
  forall (qr : queryResolver) (hr : httpResolver) ctx q w,
    (let rae := queryResolver_rewriteAndExecute qr ctx q in
     let res := fst (outcome rae w) in
     let err := snd (outcome rae w) in
     let c := Complete (resultCompleter qr) ctx q res err (finalWorld rae w) in
     events (queryResolver_Resolve qr ctx q) w =
       EvSpanTimer "resolveQuery" :: events rae w ++
       [EvComplete ctx q res err; EvSpanStop "resolveQuery"] /\
     filter isComplete (events (queryResolver_Resolve qr ctx q) w) =
       [EvComplete ctx q res err] /\
     calls isComplete (events (queryResolver_Resolve qr ctx q) w) = 1 /\
     outcome (queryResolver_Resolve qr ctx q) w =
       Some {| Data := fst (fst c); Err := snd (fst c) |} /\
     finalWorld (queryResolver_Resolve qr ctx q) w = snd c /\
     (err <> None -> res = None)) /\
    (let rae := httpResolver_rewriteAndExecute hr ctx q in
     let res := fst (outcome rae w) in
     let err := snd (outcome rae w) in
     let c := Complete (hr_resultCompleter hr) ctx q res err (finalWorld rae w) in
     events (httpResolver_Resolve hr ctx q) w =
       EvSpanTimer "resolveHTTPQuery" :: events rae w ++
       [EvComplete ctx q res err; EvSpanStop "resolveHTTPQuery"] /\
     filter isComplete (events (httpResolver_Resolve hr ctx q) w) =
       [EvComplete ctx q res err] /\
     calls isComplete (events (httpResolver_Resolve hr ctx q) w) = 1 /\
     outcome (httpResolver_Resolve hr ctx q) w =
       Some {| Data := fst (fst c); Err := snd (fst c) |} /\
     finalWorld (httpResolver_Resolve hr ctx q) w = snd c).
Proof.
  intros qr hr ctx q w; split; unfold calls; run_pipeline;
    repeat split; try reflexivity; intros; congruence.
Qed.

(** C3.  If the rewriter returns a non-nil error, the executor is not
    invoked during that [Resolve], and the completer receives a nil raw
    result with the rewriter's error wrapped in the context
    [couldn't rewrite query <response name>]. *)
Theorem rewrite_failure_skips_execution :
  forall (qr : queryResolver) ctx q w dgQuery e w1,
    Rewrite (queryRewriter qr) ctx q w = ((dgQuery, Some e), w1) ->
    let wrapped := errorWrap e ("couldn't rewrite query " ++ ResponseName q) in
    events (queryResolver_Resolve qr ctx q) w =
      [EvSpanTimer "resolveQuery"; EvRewrite ctx q;
       EvComplete ctx q None (Some wrapped); EvSpanStop "resolveQuery"] /\
    calls isQuery (events (queryResolver_Resolve qr ctx q) w) = 0 /\
    completerInputs (events (queryResolver_Resolve qr ctx q) w) =
      [(None, Some wrapped)] /\
    finalWorld (queryResolver_Resolve qr ctx q) w =
      snd (Complete (resultCompleter qr) ctx q None (Some wrapped) w1) /\
    wrapped = GQLWrapf e "couldn't rewrite query %s" [ResponseName q].
Proof.
  intros qr ctx q w dgQuery e w1 HR wrapped; subst wrapped.
  rewrite <- rewrite_context.
  unfold calls; unfold_pipeline; rewrite HR; cbn.
  next_call. repeat split; reflexivity.
Qed.

(** C4.  If the rewriter succeeds and the executor returns a non-nil error,
    the completer receives a nil raw result with the executor's error
    wrapped in the context [Dgraph query failed]; the native query is
    handed to the executor once and occurs in no later call. *)
Theorem execute_failure_reaches_completer :
  forall (qr : queryResolver) ctx q w dgQuery w1 resp e w2,
    Rewrite (queryRewriter qr) ctx q w = ((dgQuery, None), w1) ->
    Query (queryExecutor qr) ctx dgQuery w1 = ((resp, Some e), w2) ->
    let wrapped := errorWrap e "Dgraph query failed" in
    events (queryResolver_Resolve qr ctx q) w =
      [EvSpanTimer "resolveQuery"; EvRewrite ctx q; EvQuery ctx dgQuery;
       EvInfof "Dgraph query execution failed : %s" e;
       EvComplete ctx q None (Some wrapped); EvSpanStop "resolveQuery"] /\
    calls isRewrite (events (queryResolver_Resolve qr ctx q) w) = 1 /\
    calls isQuery (events (queryResolver_Resolve qr ctx q) w) = 1 /\
    completerInputs (events (queryResolver_Resolve qr ctx q) w) =
      [(None, Some wrapped)] /\
    finalWorld (queryResolver_Resolve qr ctx q) w =
      snd (Complete (resultCompleter qr) ctx q None (Some wrapped) w2) /\
    wrapped = GQLWrapf e "Dgraph query failed" [].
Proof.
  intros qr ctx q w dgQuery w1 resp e w2 HR HQ wrapped; subst wrapped.
  rewrite <- execute_context.
  unfold calls; unfold_pipeline; rewrite HR; cbn; rewrite HQ; cbn.
  next_call. repeat split; reflexivity.
Qed.

(** C5 (as amended).  An error of the rewriter is handed to the completer
    wrapped in a context that names the stage and the field's response
    name; an error of the executor is handed on wrapped in the fixed context
    [Dgraph query failed], which names the stage only; an error of the HTTP
    path (descriptor, request construction, transport, body read) is handed
    on as it is, without a wrapping.  In every case the collaborator's
    error is in the cause chain of the error handed on. *)
Theorem upstream_errors_keep_their_cause :
  forall (qr : queryResolver) (hr : httpResolver) ctx q w,
    (forall e, storeFailure qr ctx q w = Some e ->
       exists h,
         completerInputs (events (queryResolver_Resolve qr ctx q) w) =
           [(None, Some h)] /\
         Cause h = Some e /\ In e (causeChain h) /\
         ((snd (fst (Rewrite (queryRewriter qr) ctx q w)) = Some e /\
           Label h = Some ("couldn't rewrite query " ++ ResponseName q) /\
           stageWrapped (ResponseName q) e h) \/
          (snd (fst (Rewrite (queryRewriter qr) ctx q w)) = None /\
           Label h = Some "Dgraph query failed"))) /\
    (forall e, httpFailure hr q w = Some e ->
       exists res,
         completerInputs (events (httpResolver_Resolve hr ctx q) w) =
           [(res, Some e)] /\
         In e (causeChain e)).
Proof.
  intros qr hr ctx q w; split; intros e HF.
  - assert (In e (causeChain e)) by (destruct e; cbn; auto).
    revert HF. run_pipeline; intros HF; inversion HF; subst.
    + exists (errorWrap e ("couldn't rewrite query " ++ ResponseName q)).
      split; [now rewrite rewrite_context|].
      split; [reflexivity|]. split; [right; assumption|].
      left. split; [reflexivity|]. split; [reflexivity|].
      exists e, ("couldn't rewrite query " ++ ResponseName q).
      split; [reflexivity|]. split; [|assumption].
      exact (contains_append "couldn't rewrite query " (ResponseName q)).
    + exists (errorWrap e "Dgraph query failed").
      split; [reflexivity|].
      split; [reflexivity|]. split; [right; assumption|].
      right. split; reflexivity.
  - assert (In e (causeChain e)) by (destruct e; cbn; auto).
    revert HF. run_pipeline; intros HF; inversion HF; subst;
      eexists; split; (reflexivity || assumption).
Qed.

(** C6.  On the HTTP-backed resolver, if the field's [HTTPResolver]
    accessor returns a non-nil error, no request is constructed and none is
    issued during that [Resolve], and the completer receives that non-nil
    error with a nil raw result. *)
Theorem descriptor_failure_issues_no_request :
  forall (hr : httpResolver) ctx q w hrc e,
    HTTPResolver q = (hrc, Some e) ->
    events (httpResolver_Resolve hr ctx q) w =
      [EvSpanTimer "resolveHTTPQuery"; EvComplete ctx q None (Some e);
       EvSpanStop "resolveHTTPQuery"] /\
    calls isNewRequest (events (httpResolver_Resolve hr ctx q) w) = 0 /\
    calls isDo (events (httpResolver_Resolve hr ctx q) w) = 0 /\
    completerInputs (events (httpResolver_Resolve hr ctx q) w) =
      [(None, Some e)] /\
    finalWorld (httpResolver_Resolve hr ctx q) w =
      snd (Complete (hr_resultCompleter hr) ctx q None (Some e) w).
Proof.
  intros hr ctx q w hrc e HD.
  unfold calls; unfold_pipeline; rewrite HD; cbn.
  next_call. repeat split; reflexivity.
Qed.

(** C7.  On the HTTP-backed resolver, once a response is obtained its body
    is read and then closed, exactly once, before [rewriteAndExecute]
    returns and so before the completer runs, whether or not the read
    fails; and when the read succeeds the completer receives exactly the
    bytes read and a nil error. *)
Theorem response_body_read_then_closed :
  forall (hr : httpResolver) ctx q w hrc req resp w1,
    HTTPResolver q = (hrc, None) ->
    http_NewRequest (Method hrc) (URL hrc) (Body hrc) = inl req ->
    Do (Client hr) req w = (inl resp, w1) ->
    let body := resp_Body resp in
    let b := fst (fst (ioutil_ReadAll body w1)) in
    let rerr := snd (fst (ioutil_ReadAll body w1)) in
    events (httpResolver_rewriteAndExecute hr ctx q) w =
      [EvNewRequest (Method hrc) (URL hrc) (Body hrc); EvDo req;
       EvReadAll body; EvClose body] /\
    finalWorld (httpResolver_rewriteAndExecute hr ctx q) w =
      snd (Body_Close body (snd (ioutil_ReadAll body w1))) /\
    events (httpResolver_Resolve hr ctx q) w =
      [EvSpanTimer "resolveHTTPQuery";
       EvNewRequest (Method hrc) (URL hrc) (Body hrc); EvDo req;
       EvReadAll body; EvClose body;
       EvComplete ctx q b rerr; EvSpanStop "resolveHTTPQuery"] /\
    calls isClose (events (httpResolver_Resolve hr ctx q) w) = 1 /\
    (rerr = None ->
     completerInputs (events (httpResolver_Resolve hr ctx q) w) = [(b, None)]).
Proof.
  intros hr ctx q w hrc req resp w1 HD HN HDo body b rerr.
  subst body b rerr.
  unfold calls; unfold_pipeline; rewrite HD; cbn; rewrite HN; cbn;
    rewrite HDo; cbn.
  repeat next_call; repeat split; try reflexivity; intros; congruence.
Qed.

(** C8.  The no-op rewriter and the no-op executor return [(nil, nil)] and
    leave the world alone, and a store-backed resolver built from the pair
    invokes the completer, once, with a nil raw result and a nil error. *)
Theorem noop_pair_hands_nil_nil :
  forall (rc : ResultCompleter) ctx q dgQuery w,
    NoOpQueryRewrite ctx q w = ((None, None), w) /\
    NoOpQueryExecution ctx dgQuery w = ((None, None), w) /\
    (let r := NewQueryResolver (QueryRewritingFunc_Rewrite NoOpQueryRewrite)
                (QueryExecutionFunc_Query NoOpQueryExecution) rc in
     events (Resolve r ctx q) w =
       [EvSpanTimer "resolveQuery"; EvRewrite ctx q; EvQuery ctx None;
        EvComplete ctx q None None; EvSpanStop "resolveQuery"] /\
     completerInputs (events (Resolve r ctx q) w) = [(None, None)] /\
     finalWorld (Resolve r ctx q) w = snd (Complete rc ctx q None None w)).
Proof.
  intros rc ctx q dgQuery w.
  split; [reflexivity|]. split; [reflexivity|].
  run_pipeline. repeat split; reflexivity.
Qed.

(** C9.  The introspection executor built from a field [q] ignores its
    native-query argument: on any two native queries (nil included) it
    returns the same result, the introspection of [q]. *)
Theorem introspection_ignores_native_query :
  forall q ctx (dg1 dg2 : option GraphQuery) w,
    Query (QueryExecutionFunc_Query (introspectionExecution q)) ctx dg1 w =
    Query (QueryExecutionFunc_Query (introspectionExecution q)) ctx dg2 w /\
    Query (QueryExecutionFunc_Query (introspectionExecution q)) ctx dg1 w =
    Introspect q w.
Proof. intros; split; reflexivity. Qed.

(** C10.  The HTTP-backed resolver never invokes the rewriter and the
    executor it was constructed with: its trace holds no rewrite and no
    query call, and two resolvers that differ only in those two
    collaborators return the same [Resolved], trace and world. *)
Theorem http_resolver_ignores_rewriter_and_executor :
  forall (hc : http_Client) (rc : ResultCompleter)
         (qr1 qr2 : QueryRewriter) (qe1 qe2 : QueryExecutor) ctx q s,
    Resolve (NewHTTPResolver hc qr1 qe1 rc) ctx q s =
    Resolve (NewHTTPResolver hc qr2 qe2 rc) ctx q s /\
    calls isRewrite
      (events (Resolve (NewHTTPResolver hc qr1 qe1 rc) ctx q) (world s)) = 0 /\
    calls isQuery
      (events (Resolve (NewHTTPResolver hc qr1 qe1 rc) ctx q) (world s)) = 0.
Proof.
  intros hc rc qr1 qr2 qe1 qe2 ctx q s.
  split; [reflexivity|].
  unfold calls; run_pipeline; split; reflexivity.
Qed.

(** ** Further properties of the two pipelines *)

(** X1.  When the rewriter and the executor both succeed, the executor is
    given exactly the native query the rewriter returned (nil included), in
    the world the rewriter left, and the completer is given exactly the
    executor's bytes with a nil error, in the world the executor left;
    nothing is logged. *)
Theorem store_success_hands_executor_bytes :
  forall (qr : queryResolver) ctx q w dgQuery w1 resp w2,
    Rewrite (queryRewriter qr) ctx q w = ((dgQuery, None), w1) ->
    Query (queryExecutor qr) ctx dgQuery w1 = ((resp, None), w2) ->
    let c := Complete (resultCompleter qr) ctx q resp None w2 in
    events (queryResolver_Resolve qr ctx q) w =
      [EvSpanTimer "resolveQuery"; EvRewrite ctx q; EvQuery ctx dgQuery;
       EvComplete ctx q resp None; EvSpanStop "resolveQuery"] /\
    outcome (queryResolver_Resolve qr ctx q) w =
      Some {| Data := fst (fst c); Err := snd (fst c) |} /\
    finalWorld (queryResolver_Resolve qr ctx q) w = snd c /\
    calls isInfof (events (queryResolver_Resolve qr ctx q) w) = 0.
Proof.
  intros qr ctx q w dgQuery w1 resp w2 HR HQ c; subst c.
  unfold calls; unfold_pipeline; rewrite HR; cbn; rewrite HQ; cbn.
  next_call. repeat split; reflexivity.
Qed.

(** X2.  On every path of [Resolve], of either resolver, the span timer of
    that resolver's kind is started first and stopped last, once each. *)
Theorem span_brackets_every_resolution :
  forall (qr : queryResolver) (hr : httpResolver) ctx q w,
    (let t := events (queryResolver_Resolve qr ctx q) w in
     hd_error t = Some (EvSpanTimer "resolveQuery") /\
     last t (EvSpanTimer "") = EvSpanStop "resolveQuery" /\
     calls isSpanTimer t = 1 /\ calls isSpanStop t = 1) /\
    (let t := events (httpResolver_Resolve hr ctx q) w in
     hd_error t = Some (EvSpanTimer "resolveHTTPQuery") /\
     last t (EvSpanTimer "") = EvSpanStop "resolveHTTPQuery" /\
     calls isSpanTimer t = 1 /\ calls isSpanStop t = 1).
Proof.
  intros qr hr ctx q w; split; unfold calls; run_pipeline;
    repeat split; reflexivity.
Qed.

(** X3.  On every path of the store-backed [Resolve] the rewriter is
    invoked exactly once; the executor is invoked once when the rewriter
    returned a nil error and not at all otherwise (there is no retry); and
    nothing of the HTTP path happens. *)
Theorem store_call_discipline :
  forall (qr : queryResolver) ctx q w,
    let t := events (queryResolver_Resolve qr ctx q) w in
    calls isRewrite t = 1 /\
    calls isQuery t =
      match snd (fst (Rewrite (queryRewriter qr) ctx q w)) with
      | None => 1
      | Some _ => 0
      end /\
    calls isNewRequest t = 0 /\ calls isDo t = 0 /\
    calls isReadAll t = 0 /\ calls isClose t = 0.
Proof.
  intros qr ctx q w; unfold calls; run_pipeline; repeat split; reflexivity.
Qed.

(** X4.  The store-backed resolver logs exactly when the executor fails,
    and then it logs the executor's own error, before wrapping; a failed
    rewrite is not logged.  The HTTP-backed resolver never logs. *)
Theorem execution_failure_is_the_only_log :
  forall (qr : queryResolver) (hr : httpResolver) ctx q w,
    (let r := Rewrite (queryRewriter qr) ctx q w in
     filter isInfof (events (queryResolver_Resolve qr ctx q) w) =
       match snd (fst r) with
       | Some _ => []
       | None =>
           match snd (fst (Query (queryExecutor qr) ctx (fst (fst r)) (snd r))) with
           | Some e => [EvInfof "Dgraph query execution failed : %s" e]
           | None => []
           end
       end) /\
    filter isInfof (events (httpResolver_Resolve hr ctx q) w) = [].
Proof.
  intros qr hr ctx q w; split; run_pipeline;
    repeat match goal with H : _ = _ |- _ => rewrite H; cbn end; reflexivity.
Qed.

(** X5.  On the HTTP-backed resolver, when the descriptor is obtained and
    [http.NewRequest] refuses it, the request is built from the
    descriptor's method, URL and body, nothing is sent, and the completer
    receives a nil raw result with the construction error as it is, in the
    world [Resolve] started from. *)
Theorem request_construction_failure_sends_nothing :
  forall (hr : httpResolver) ctx q w hrc e,
    HTTPResolver q = (hrc, None) ->
    http_NewRequest (Method hrc) (URL hrc) (Body hrc) = inr e ->
    events (httpResolver_Resolve hr ctx q) w =
      [EvSpanTimer "resolveHTTPQuery";
       EvNewRequest (Method hrc) (URL hrc) (Body hrc);
       EvComplete ctx q None (Some e); EvSpanStop "resolveHTTPQuery"] /\
    calls isDo (events (httpResolver_Resolve hr ctx q) w) = 0 /\
    finalWorld (httpResolver_Resolve hr ctx q) w =
      snd (Complete (hr_resultCompleter hr) ctx q None (Some e) w).
Proof.
  intros hr ctx q w hrc e HD HN.
  unfold calls; unfold_pipeline; rewrite HD; cbn; rewrite HN; cbn.
  next_call. repeat split; reflexivity.
Qed.

(** X6.  On the HTTP-backed resolver, when the request is sent and the
    transport fails, no body is read and none is closed, the request is not
    sent again, and the completer receives a nil raw result with the
    transport error as it is, in the world the failed call left. *)
Theorem transport_failure_reads_and_closes_nothing :
  forall (hr : httpResolver) ctx q w hrc req e w1,
    HTTPResolver q = (hrc, None) ->
    http_NewRequest (Method hrc) (URL hrc) (Body hrc) = inl req ->
    Do (Client hr) req w = (inr e, w1) ->
    events (httpResolver_Resolve hr ctx q) w =
      [EvSpanTimer "resolveHTTPQuery";
       EvNewRequest (Method hrc) (URL hrc) (Body hrc); EvDo req;
       EvComplete ctx q None (Some e); EvSpanStop "resolveHTTPQuery"] /\
    calls isDo (events (httpResolver_Resolve hr ctx q) w) = 1 /\
    calls isReadAll (events (httpResolver_Resolve hr ctx q) w) = 0 /\
    calls isClose (events (httpResolver_Resolve hr ctx q) w) = 0 /\
    finalWorld (httpResolver_Resolve hr ctx q) w =
      snd (Complete (hr_resultCompleter hr) ctx q None (Some e) w1).
Proof.
  intros hr ctx q w hrc req e w1 HD HN HDo.
  unfold calls; unfold_pipeline; rewrite HD; cbn; rewrite HN; cbn;
    rewrite HDo; cbn.
  next_call. repeat split; reflexivity.
Qed.


(** X8.  A store-backed resolver built from the no-op rewriter and the
    introspection executor of a field [q0] hands the executor a nil native
    query and hands the completer the introspection of [q0], whatever field
    is being resolved: its bytes when it succeeds, and a nil raw result
    with its error wrapped as a failed store query when it fails. *)
Theorem introspection_resolver_answers_for_bound_field :
  forall (rc : ResultCompleter) q0 ctx q w,
    let r := NewQueryResolver (QueryRewritingFunc_Rewrite NoOpQueryRewrite)
               (QueryExecutionFunc_Query (introspectionExecution q0)) rc in
    filter isQuery (events (Resolve r ctx q) w) = [EvQuery ctx None] /\
    completerInputs (events (Resolve r ctx q) w) =
      [match snd (fst (Introspect q0 w)) with
       | None => (fst (fst (Introspect q0 w)), None)
       | Some e => (None, Some (GQLWrapf e "Dgraph query failed" []))
       end].
Proof.
  intros rc q0 ctx q w. unfold_pipeline.
  destruct (Introspect q0 w) as [[b [e|]] w1] eqn:HI; cbn;
    next_call; split; reflexivity.
Qed.


(** X10.  On every path of the store-backed [Resolve], each collaborator
    that takes a context is given the caller's context, and each that takes
    a field is given the field being resolved. *)
Theorem store_passes_context_and_field_on :
  forall (qr : queryResolver) ctx q w,
    let t := events (queryResolver_Resolve qr ctx q) w in
    Forall (fun ev => forall c, eventCtx ev = Some c -> c = ctx) t /\
    Forall (fun ev => forall f, eventField ev = Some f -> f = q) t.
Proof.
  intros qr ctx q w; run_pipeline; split;
    repeat (apply Forall_cons || apply Forall_nil); cbn; intros; congruence.
Qed.

End Properties.

(** * The resolvers at work *)

Import Demo.

(** The scenarios of the specification: a field whose rewrite and execution
    succeed resolves to the executor's bytes; a field whose rewrite fails
    resolves, under an echoing completer, to the wrapped rewrite error. *)
Example scenario_ok :
  outcome (queryResolver_Resolve (storeResolver prefixRewriter okExecutor echoCompleter)
             tt "F") 0
  = Some {| Data := payload "ok"; Err := None |}.
Proof. reflexivity. Qed.

Example scenario_rewrite_error :
  outcome (queryResolver_Resolve (storeResolver failingRewriter okExecutor echoCompleter)
             tt "F") 0
  = Some {| Data := None;
            Err := Some (errorWrap (errorNew "unknown type")
                           "couldn't rewrite query F") |}.
Proof. reflexivity. Qed.

Example scenario_remote_ok :
  outcome (httpResolver_Resolve (remoteResolver echoClient echoCompleter) tt "weather") 0
  = Some {| Data := payload "http://api.local/weather"; Err := None |}.
Proof. reflexivity. Qed.

Example scenario_remote_truncated :
  run (httpResolver_Resolve (remoteResolver truncatingClient echoCompleter) tt "weather") 0
  = (Some {| Data := payload "trunc"; Err := Some (errorNew "unexpected EOF") |},
     @Build_State demo 3
       [EvSpanTimer "resolveHTTPQuery";
        EvNewRequest "GET" "http://api.local/weather" "";
        @EvDo demo ("GET", "http://api.local/weather", "");
        @EvReadAll demo "truncated"; @EvClose demo "truncated";
        @EvComplete demo tt "weather" (payload "trunc")
          (Some (errorNew "unexpected EOF"));
        EvSpanStop "resolveHTTPQuery"]).
Proof. reflexivity. Qed.

(** The function adapter of a resolver may return a nil [Resolved]; the two
    resolvers of this file never do. *)
Example resolver_func_may_return_nil :
  outcome (Resolve (QueryResolverFunc_Resolve (ext := demo) (fun _ _ w => (None, w)))
             tt "F") 0 = None.
Proof. reflexivity. Qed.

(** C1, as stated, fails: with a completer that answers a null payload and no
    error, the rewriter's failure is in no part of the returned [Resolved]. *)
Lemma Resolve_failure_dropped_by_completer :
  snd (fst (Rewrite failingRewriter tt "getUser" 0)) = Some (errorNew "unknown type") /\
  storeFailure (storeResolver failingRewriter okExecutor nullCompleter) tt "getUser" 0
    = Some (errorNew "unknown type") /\
  outcome (queryResolver_Resolve (storeResolver failingRewriter okExecutor nullCompleter)
             tt "getUser") 0
    = Some {| Data := payload "null"; Err := None |}.
Proof. repeat split; reflexivity. Qed.

(** With an echoing completer the failed rewrite shows in [Err]. *)
Lemma Resolve_total_completer_decides_witness :
  keepsFailures echoCompleter /\
  storeFailure (storeResolver failingRewriter okExecutor echoCompleter) tt "getUser" 0
    <> None /\
  exists r,
    outcome (queryResolver_Resolve (storeResolver failingRewriter okExecutor echoCompleter)
               tt "getUser") 0 = Some r /\
    Err r <> None.
Proof.
  assert (K : keepsFailures echoCompleter) by (intros c q res e w; cbn; discriminate).
  assert (F : storeFailure (storeResolver failingRewriter okExecutor echoCompleter)
                tt "getUser" 0 <> None) by (cbn; discriminate).
  split; [exact K|]. split; [exact F|].
  destruct (Resolve_total_completer_decides
              (storeResolver failingRewriter okExecutor echoCompleter)
              (remoteResolver echoClient echoCompleter) tt "getUser" 0)
    as [[r [Hr [_ [_ HK]]]] _].
  exists r. split; [exact Hr | exact (HK K F)].
Defined.

(** A failing rewriter on the field [getUser]. *)
Lemma rewrite_failure_skips_execution_witness :
  Rewrite failingRewriter tt "getUser" 0 = ((None, Some (errorNew "unknown type")), 0) /\
  calls isQuery
    (events (queryResolver_Resolve (storeResolver failingRewriter okExecutor echoCompleter)
               tt "getUser") 0) = 0 /\
  completerInputs
    (events (queryResolver_Resolve (storeResolver failingRewriter okExecutor echoCompleter)
               tt "getUser") 0)
    = [(None, Some (errorWrap (errorNew "unknown type") "couldn't rewrite query getUser"))].
Proof.
  split; [reflexivity|].
  destruct (rewrite_failure_skips_execution
              (storeResolver failingRewriter okExecutor echoCompleter)
              tt "getUser" 0 None (errorNew "unknown type") 0 eq_refl)
    as [_ [H0 [Hin _]]].
  split; [exact H0 | exact Hin].
Defined.

(** A store that is down, behind a rewriter that succeeds. *)
Lemma execute_failure_reaches_completer_witness :
  Rewrite prefixRewriter tt "getUser" 0 = ((Some "query getUser", None), 0) /\
  Query downExecutor tt (Some "query getUser") 0
    = ((None, Some (errorNew "connection refused")), 1) /\
  calls isQuery
    (events (queryResolver_Resolve (storeResolver prefixRewriter downExecutor echoCompleter)
               tt "getUser") 0) = 1 /\
  completerInputs
    (events (queryResolver_Resolve (storeResolver prefixRewriter downExecutor echoCompleter)
               tt "getUser") 0)
    = [(None, Some (errorWrap (errorNew "connection refused") "Dgraph query failed"))].
Proof.
  split; [reflexivity|]. split; [reflexivity|].
  destruct (execute_failure_reaches_completer
              (storeResolver prefixRewriter downExecutor echoCompleter)
              tt "getUser" 0 (Some "query getUser") 0 None
              (errorNew "connection refused") 1 eq_refl eq_refl)
    as [_ [_ [H1 [Hin _]]]].
  split; [exact H1 | exact Hin].
Defined.

(** C5, as stated, fails twice over.  On the HTTP path the descriptor's error
    reaches the completer as it is, without a stage label; on the store path
    the executor's error is wrapped in a context that does not name the
    field. *)
Lemma upstream_error_without_stage_or_name :
  (snd (HTTPResolver (Externals := demo) "legacyUser")
     = Some (errorNew "no custom directive") /\
   httpFailure (remoteResolver echoClient echoCompleter) "legacyUser" 0
     = Some (errorNew "no custom directive") /\
   completerInputs
     (events (httpResolver_Resolve (remoteResolver echoClient echoCompleter)
                tt "legacyUser") 0)
     = [(None, Some (errorNew "no custom directive"))] /\
   ~ stageWrapped "legacyUser" (errorNew "no custom directive")
       (errorNew "no custom directive")) /\
  (snd (fst (Query downExecutor tt (Some "query getUser") 0))
     = Some (errorNew "connection refused") /\
   storeFailure (storeResolver prefixRewriter downExecutor echoCompleter) tt "getUser" 0
     = Some (errorNew "connection refused") /\
   completerInputs
     (events (queryResolver_Resolve (storeResolver prefixRewriter downExecutor echoCompleter)
                tt "getUser") 0)
     = [(None, Some (errorWrap (errorNew "connection refused") "Dgraph query failed"))] /\
   ~ stageWrapped "getUser" (errorNew "connection refused")
       (errorWrap (errorNew "connection refused") "Dgraph query failed")).
Proof.
  split; (split; [reflexivity|]); (split; [reflexivity|]); (split; [reflexivity|]).
  - intros [c [l [H _]]]. discriminate H.
  - intros [c [l [H [Hc _]]]]. inversion H; subst. cbn in Hc. discriminate Hc.
Qed.

(** A failing rewriter on the store path, a dead network on the HTTP path. *)
Lemma upstream_errors_keep_their_cause_witness :
  storeFailure (storeResolver failingRewriter okExecutor echoCompleter) tt "getUser" 0
    = Some (errorNew "unknown type") /\
  httpFailure (remoteResolver offlineClient echoCompleter) "weather" 0
    = Some (errorNew "dial tcp: no route to host") /\
  (exists h,
      completerInputs
        (events (queryResolver_Resolve
                   (storeResolver failingRewriter okExecutor echoCompleter)
                   tt "getUser") 0) = [(None, Some h)] /\
      Cause h = Some (errorNew "unknown type")) /\
  (exists res,
      completerInputs
        (events (httpResolver_Resolve (remoteResolver offlineClient echoCompleter)
                   tt "weather") 0)
      = [(res, Some (errorNew "dial tcp: no route to host"))]).
Proof.
  split; [reflexivity|]. split; [reflexivity|].
  destruct (upstream_errors_keep_their_cause
              (storeResolver failingRewriter okExecutor echoCompleter)
              (remoteResolver offlineClient echoCompleter) tt "getUser" 0)
    as [HS _].
  destruct (upstream_errors_keep_their_cause
              (storeResolver failingRewriter okExecutor echoCompleter)
              (remoteResolver offlineClient echoCompleter) tt "weather" 0)
    as [_ HH].
  destruct (HS (errorNew "unknown type") eq_refl) as [h [Hin [Hc _]]].
  destruct (HH (errorNew "dial tcp: no route to host") eq_refl) as [res [Hres _]].
  split; [exists h; split; assumption | exists res; exact Hres].
Defined.

(** The field [legacyUser] has no HTTP descriptor. *)
Lemma descriptor_failure_issues_no_request_witness :
  HTTPResolver (Externals := demo) "legacyUser"
    = ({| URL := ""; Method := ""; Body := "" |}, Some (errorNew "no custom directive")) /\
  calls isNewRequest
    (events (httpResolver_Resolve (remoteResolver echoClient echoCompleter)
               tt "legacyUser") 0) = 0 /\
  calls isDo
    (events (httpResolver_Resolve (remoteResolver echoClient echoCompleter)
               tt "legacyUser") 0) = 0 /\
  completerInputs
    (events (httpResolver_Resolve (remoteResolver echoClient echoCompleter)
               tt "legacyUser") 0)
    = [(None, Some (errorNew "no custom directive"))].
Proof.
  split; [reflexivity|].
  destruct (descriptor_failure_issues_no_request
              (remoteResolver echoClient echoCompleter) tt "legacyUser" 0
              {| URL := ""; Method := ""; Body := "" |}
              (errorNew "no custom directive") eq_refl)
    as [_ [Hn [Hd [Hin _]]]].
  repeat split; assumption.
Defined.

(** A body that breaks off is closed all the same; a whole body reaches the
    completer as it was read. *)
Lemma response_body_read_then_closed_witness :
  HTTPResolver (Externals := demo) "weather"
    = ({| URL := "http://api.local/weather"; Method := "GET"; Body := "" |}, None) /\
  http_NewRequest (Externals := demo) "GET" "http://api.local/weather" ""
    = inl ("GET", "http://api.local/weather", "") /\
  Do truncatingClient ("GET", "http://api.local/weather", "") 0 = (inl "truncated", 1) /\
  Do echoClient ("GET", "http://api.local/weather", "") 0
    = (inl "http://api.local/weather", 1) /\
  calls isClose
    (events (httpResolver_Resolve (remoteResolver truncatingClient echoCompleter)
               tt "weather") 0) = 1 /\
  completerInputs
    (events (httpResolver_Resolve (remoteResolver echoClient echoCompleter)
               tt "weather") 0)
    = [(payload "http://api.local/weather", None)].
Proof.
  split; [reflexivity|]. split; [reflexivity|].
  split; [reflexivity|]. split; [reflexivity|].
  destruct (response_body_read_then_closed
              (remoteResolver truncatingClient echoCompleter) tt "weather" 0
              {| URL := "http://api.local/weather"; Method := "GET"; Body := "" |}
              ("GET", "http://api.local/weather", "") "truncated" 1
              eq_refl eq_refl eq_refl)
    as [_ [_ [_ [Hclose _]]]].
  destruct (response_body_read_then_closed
              (remoteResolver echoClient echoCompleter) tt "weather" 0
              {| URL := "http://api.local/weather"; Method := "GET"; Body := "" |}
              ("GET", "http://api.local/weather", "") "http://api.local/weather" 1
              eq_refl eq_refl eq_refl)
    as [_ [_ [_ [_ Hin]]]].
  split; [exact Hclose | exact (Hin eq_refl)].
Defined.

(** A rewrite and an execution that succeed on the field [getUser]. *)
Lemma store_success_hands_executor_bytes_witness :
  Rewrite prefixRewriter tt "getUser" 0 = ((Some "query getUser", None), 0) /\
  Query okExecutor tt (Some "query getUser") 0 = ((payload "ok", None), 1) /\
  events (queryResolver_Resolve (storeResolver prefixRewriter okExecutor echoCompleter)
            tt "getUser") 0
    = [EvSpanTimer "resolveQuery"; @EvRewrite demo tt "getUser";
       @EvQuery demo tt (Some "query getUser");
       @EvComplete demo tt "getUser" (payload "ok") None;
       EvSpanStop "resolveQuery"] /\
  outcome (queryResolver_Resolve (storeResolver prefixRewriter okExecutor echoCompleter)
             tt "getUser") 0
    = Some {| Data := payload "ok"; Err := None |}.
Proof.
  split; [reflexivity|]. split; [reflexivity|].
  destruct (store_success_hands_executor_bytes
              (storeResolver prefixRewriter okExecutor echoCompleter)
              tt "getUser" 0 (Some "query getUser") 0 (payload "ok") 1
              eq_refl eq_refl)
    as [Ht [Ho _]].
  split; [exact Ht | exact Ho].
Defined.

(** The field [badMethod] has a descriptor that [http.NewRequest] refuses. *)
Lemma request_construction_failure_sends_nothing_witness :
  HTTPResolver (Externals := demo) "badMethod"
    = ({| URL := "http://api.local/x"; Method := "BAD METHOD"; Body := "" |}, None) /\
  http_NewRequest (Externals := demo) "BAD METHOD" "http://api.local/x" ""
    = inr (errorNew "net/http: invalid method") /\
  calls isDo
    (events (httpResolver_Resolve (remoteResolver echoClient echoCompleter)
               tt "badMethod") 0) = 0 /\
  completerInputs
    (events (httpResolver_Resolve (remoteResolver echoClient echoCompleter)
               tt "badMethod") 0)
    = [(None, Some (errorNew "net/http: invalid method"))].
Proof.
  split; [reflexivity|]. split; [reflexivity|].
  destruct (request_construction_failure_sends_nothing
              (remoteResolver echoClient echoCompleter) tt "badMethod" 0
              {| URL := "http://api.local/x"; Method := "BAD METHOD"; Body := "" |}
              (errorNew "net/http: invalid method") eq_refl eq_refl)
    as [Ht [Hd _]].
  split; [exact Hd|]. rewrite Ht. reflexivity.
Defined.

(** A client without a network, on the field [weather]. *)
Lemma transport_failure_reads_and_closes_nothing_witness :
  HTTPResolver (Externals := demo) "weather"
    = ({| URL := "http://api.local/weather"; Method := "GET"; Body := "" |}, None) /\
  http_NewRequest (Externals := demo) "GET" "http://api.local/weather" ""
    = inl ("GET", "http://api.local/weather", "") /\
  Do offlineClient ("GET", "http://api.local/weather", "") 0
    = (inr (errorNew "dial tcp: no route to host"), 1) /\
  calls isReadAll
    (events (httpResolver_Resolve (remoteResolver offlineClient echoCompleter)
               tt "weather") 0) = 0 /\
  calls isClose
    (events (httpResolver_Resolve (remoteResolver offlineClient echoCompleter)
               tt "weather") 0) = 0 /\
  completerInputs
    (events (httpResolver_Resolve (remoteResolver offlineClient echoCompleter)
               tt "weather") 0)
    = [(None, Some (errorNew "dial tcp: no route to host"))].
Proof.
  split; [reflexivity|]. split; [reflexivity|]. split; [reflexivity|].
  destruct (transport_failure_reads_and_closes_nothing
              (remoteResolver offlineClient echoCompleter) tt "weather" 0
              {| URL := "http://api.local/weather"; Method := "GET"; Body := "" |}
              ("GET", "http://api.local/weather", "")
              (errorNew "dial tcp: no route to host") 1
              eq_refl eq_refl eq_refl)
    as [Ht [_ [Hr [Hc _]]]].
  split; [exact Hr|]. split; [exact Hc|]. rewrite Ht. reflexivity.
Defined.
